(** * Analog sample-and-hold buffer on a discrete-event virtual clock

    A shallow embedding of [mixed_mode_simulator/sample_and_hold.py]
    (class [AnalogBuffer]) together with the part of the SimPy engine the
    class runs on: the event queue ordered by (time, priority, event id),
    processes that are generators, timeouts, and process-completion events.

    Times and delays are Python numbers: an [int] of any size or a
    binary64 [float], with Python's rules for mixing them. *)

From Stdlib Require Import Floats.
From Stdlib Require Import String ZArith List Bool Lia Permutation.
Import ListNotations.
Local Open Scope Z_scope.

(** ** Python numbers *)

Inductive num :=
| PInt (z : Z)
| PFloat (f : float).

(** Python exceptions seen by the stage.  [ValueError] is what
    [env.timeout] raises for a negative delay and [OverflowError] what the
    conversion of an [int] to [float] raises when the [int] is too large;
    [AppError] stands for any failure of a routing stage that is an
    instance of [Exception], [BaseError] for one that derives from
    [BaseException] only (as [KeyboardInterrupt] and [SystemExit] do). *)
Inductive exn :=
| ValueError (delay : num)
| OverflowError
| AppError (reason : string)
| BaseError (reason : string).

(** [isinstance(e, Exception)] *)
Definition is_exception (e : exn) : bool :=
  match e with BaseError _ => false | _ => true end.

(** The least magnitude of an [int] that [float(int)] refuses: the
    conversion rounds to nearest, ties to even, and 2^1024 - 2^970 is
    half-way between the largest binary64 value and 2^1024. *)
Definition float_max_int : Z := 2 ^ 1024 - 2 ^ 970.

Definition fits (z : Z) : bool := Z.abs z <? float_max_int.

(** The binary64 value nearest to [z]. *)
Definition Z2float (z : Z) : float :=
  SF2Prim (binary_normalize prec emax z 0 false).

(** [float(z)] *)
Definition to_float (z : Z) : exn + float :=
  if fits z then inr (Z2float z) else inl OverflowError.

(** [a + b]: exact on two [int]s, IEEE on two [float]s (which overflows
    to infinity without raising); an [int] next to a [float] is
    converted first. *)
Definition num_add (a b : num) : exn + num :=
  match a, b with
  | PInt x, PInt y => inr (PInt (x + y))
  | PFloat x, PFloat y => inr (PFloat (x + y)%float)
  | PInt x, PFloat y =>
      match to_float x with
      | inr fx => inr (PFloat (fx + y)%float)
      | inl e => inl e
      end
  | PFloat x, PInt y =>
      match to_float y with
      | inr fy => inr (PFloat (x + fy)%float)
      | inl e => inl e
      end
  end.


(** A [float] against an [int]: Python compares the two exactly, without
    converting the [int].  [None] for a NaN. *)
Definition float_vs_Z (f : float) (z : Z) : option comparison :=
  match Prim2SF f with
  | S754_nan => None
  | S754_infinity s => Some (if s then Lt else Gt)
  | S754_zero _ => Some (0 ?= z)
  | S754_finite s m e =>
      let v := cond_Zopp s (Zpos m) in
      Some (if 0 <=? e then v * 2 ^ e ?= z else v ?= z * 2 ^ (- e))
  end.

(** [a < b] and [a == b] *)
Definition num_lt (a b : num) : bool :=
  match a, b with
  | PInt x, PInt y => x <? y
  | PFloat x, PFloat y => (x <? y)%float
  | PFloat x, PInt y =>
      match float_vs_Z x y with Some Lt => true | _ => false end
  | PInt x, PFloat y =>
      match float_vs_Z y x with Some Gt => true | _ => false end
  end.

Definition num_eq (a b : num) : bool :=
  match a, b with
  | PInt x, PInt y => x =? y
  | PFloat x, PFloat y => (x =? y)%float
  | PFloat x, PInt y | PInt y, PFloat x =>
      match float_vs_Z x y with Some Eq => true | _ => false end
  end.

(** The whole ticks of a number that is an [int]. *)
Definition ticks (n : num) : Z :=
  match n with PInt z => z | PFloat _ => 0 end.

(** Whether [now * 1e6] can be evaluated: the product of an [int] and a
    [float] converts the [int] first. *)
Definition printable (now : num) : bool :=
  match now with PInt z => fits z | PFloat _ => true end.

(** ** Data model *)

(** Modelled from the spec: [events.DownstreamEvent], whose class is not
    among the sources.  The Event Record of the spec: the detection-event
    dictionary with the keys the tests give it, and the per-sample
    dictionary with its sample index.  A value, as the spec has it: no
    operation below writes to it. *)
Record DownstreamEvent := mkEvent {
  event_number : Z;   (* detection_event_info["event_number"] *)
  scintillator : Z;
  event_length : Z;
  sample_index : Z    (* event_info["sample_index"] *)
}.

(** How a process event ends: [_ok = True], or [_ok = False] with the
    exception as its value. *)
Inductive outcome :=
| Ok
| Err (e : exn).

(** Modelled from the spec: the class [AMUX] of the downstream routing
    stage, which is not among the sources.  The spec gives its contract
    only: [entry_point(source index, event)] is a suspending operation
    that may take virtual time and may fail.  An [activity] is what one
    such call does: a finite sequence of waits of whole ticks ended by
    success or by a raised exception of any kind. *)
Inductive activity :=
| ADone
| AFail (e : exn)
| AWait (d : Z) (k : activity).

Record AMUX := mkAMUX {
  entry_point : Z -> DownstreamEvent -> activity
}.

Inductive location := ring | tail.

(** The fields of an [AnalogBuffer] object ([self.env] is the engine
    state below). *)
Record AnalogBuffer := mkBuffer {
  amux : option AMUX;
  buffer_index : Z;
  buffer_location : location;
  sample_length : num;
  buffer_length : Z;
  chain_delay : num;
  debug : bool;
  downstream_events_processed : Z
}.

(** [AnalogBuffer.__init__] *)
Definition init (buffer_index : Z) (buffer_location : location)
    (sample_length : num) (buffer_length : Z) (chain_delay : num)
    (debug : bool) : AnalogBuffer :=
  {| amux := None;
     buffer_index := buffer_index;
     buffer_location := buffer_location;
     sample_length := sample_length;
     buffer_length := buffer_length;
     chain_delay := chain_delay;
     debug := debug;
     downstream_events_processed := 0 |}.

(** [AnalogBuffer.set_amux] *)
Definition set_amux (self : AnalogBuffer) (m : option AMUX) : AnalogBuffer :=
  {| amux := m;
     buffer_index := buffer_index self;
     buffer_location := buffer_location self;
     sample_length := sample_length self;
     buffer_length := buffer_length self;
     chain_delay := chain_delay self;
     debug := debug self;
     downstream_events_processed := downstream_events_processed self |}.

(** [self.downstream_events_processed += 1] *)
Definition bump (self : AnalogBuffer) : AnalogBuffer :=
  {| amux := amux self;
     buffer_index := buffer_index self;
     buffer_location := buffer_location self;
     sample_length := sample_length self;
     buffer_length := buffer_length self;
     chain_delay := chain_delay self;
     debug := debug self;
     downstream_events_processed := downstream_events_processed self + 1 |}.

(** The lines the class prints, one constructor per [print] call, each
    with the virtual time it was printed at. *)
Inductive line :=
| LUnitStart (now : num) (loc : location) (idx unit_index : Z)
             (ev sample : Z) (has_amux : bool)
| LUnitEnd (now : num) (loc : location) (idx unit_index : Z)
           (ev sample : Z) (has_amux : bool)
| LRemove (now : num) (loc : location) (idx : Z)
| LNoMux (now : num)
| LOutOfTail (ev sample : Z)
| LBufferIn (now : num) (loc : location) (idx : Z) (has_amux : bool)
| LCallRemove (now : num) (loc : location) (idx : Z) (has_amux : bool)
| LCaught (now : num) (e : exn).

(** ** Generators

    A generator function body is a tree of the operations it performs
    between and at its [yield]s.  Reads of [self] happen when the
    operation is reached, not when the generator is created. *)
Inductive gen :=
| Done                                   (* the body returns *)
| Raise (e : exn)                        (* an exception leaves the body *)
| YieldTimeout (d : num) (k : gen)       (* yield env.timeout(d), d not < 0 *)
| YieldProcess (sub : gen) (k : outcome -> gen)
                                         (* yield env.process(sub) *)
| Spawn (sub : gen) (k : gen)            (* env.process(sub), not waited on *)
| Self (k : AnalogBuffer -> gen)         (* read fields of self *)
| Print (l : num -> exn + line) (k : gen)
                                         (* print; building the line from
                                            env.now may raise *)
| Update (f : AnalogBuffer -> AnalogBuffer) (k : gen)
                                         (* assign to fields of self *)
| Call (idx : Z) (ev : DownstreamEvent) (k : gen).
                                         (* mux.entry_point(idx, ev) is called *)

(** [delay < 0] *)
Definition lt0 (d : num) : bool := num_lt d (PInt 0).

(** [env.timeout(d)]: SimPy raises [ValueError] for a negative delay when
    the timeout is created. *)
Definition timeout (d : num) (k : gen) : gen :=
  if lt0 d then Raise (ValueError d) else YieldTimeout d k.

(** A line that starts with [f"{self.env.now*1e6:.3f} us"]. *)
Definition stamped (f : num -> line) : num -> exn + line :=
  fun now => if printable now then inr (f now) else inl OverflowError.

(** A line that does not read the clock. *)
Definition plain (l : line) : num -> exn + line := fun _ => inr l.

(** The generator an [activity] of the multiplexer stands for. *)
Fixpoint activity_gen (a : activity) : gen :=
  match a with
  | ADone => Done
  | AFail e => Raise e
  | AWait d k => timeout (PInt d) (activity_gen k)
  end.

Definition has (m : option AMUX) : bool :=
  match m with Some _ => true | None => false end.

(** A [print] guarded by [if self.debug:]. *)
Definition when_debug (l : AnalogBuffer -> num -> exn + line) (k : gen)
    : gen :=
  Self (fun self => if debug self then Print (l self) k else k).

(** ** The methods of [AnalogBuffer] *)

(** [sample_and_hold_unit(self, event, unit_index)] *)
Definition sample_and_hold_unit (event : DownstreamEvent) (unit_index : Z)
    : gen :=
  when_debug (fun self => stamped (fun now =>
      LUnitStart now (buffer_location self) (buffer_index self) unit_index
                 (event_number event) (sample_index event) (has (amux self))))
  (Self (fun self =>
   timeout (sample_length self)
  (when_debug (fun self => stamped (fun now =>
      LUnitEnd now (buffer_location self) (buffer_index self) unit_index
               (event_number event) (sample_index event) (has (amux self))))
   Done))).

(** [remove_from_buffer(self, event, mux)] *)
Definition remove_from_buffer (event : DownstreamEvent) (mux : option AMUX)
    : gen :=
  when_debug (fun self => stamped (fun now =>
      LRemove now (buffer_location self) (buffer_index self)))
  match mux with
  | None =>
      Self (fun self =>
        if debug self
        then Print (stamped (fun now => LNoMux now))
               (Print (plain (LOutOfTail (event_number event)
                                         (sample_index event)))
                  (Update bump Done))
        else Update bump Done)
  | Some m =>
      Self (fun self =>
        Call (buffer_index self) event
       (YieldProcess (activity_gen (entry_point m (buffer_index self) event))
          (fun o => match o with Ok => Done | Err e => Raise e end)))
  end.

(** [range(n)] *)
Definition range (n : Z) : list Z := map Z.of_nat (seq 0 (Z.to_nat n)).

(** The [try] block at the end of [buffer_in]: [except Exception] takes
    the failures that are instances of [Exception] and prints; any other
    leaves the body. *)
Definition handoff (event : DownstreamEvent) : gen :=
  when_debug (fun self => stamped (fun now =>
      LCallRemove now (buffer_location self) (buffer_index self)
                  (has (amux self))))
  (Self (fun self =>
   YieldProcess (remove_from_buffer event (amux self))
     (fun o => match o with
               | Ok => Done
               | Err e =>
                   if is_exception e
                   then Print (stamped (fun now => LCaught now e)) Done
                   else Raise e
               end))).

(** The [for i in range(self.buffer_length)] loop of [buffer_in], over the
    indices still to visit, followed by [rest]. *)
Fixpoint cells (event : DownstreamEvent) (l : list Z) (rest : gen) : gen :=
  match l with
  | [] => rest
  | i :: l' =>
      YieldProcess (sample_and_hold_unit event i)
        (fun o => match o with
                  | Ok => Self (fun self =>
                            timeout (chain_delay self) (cells event l' rest))
                  | Err e => Raise e
                  end)
  end.

(** [buffer_in(self, event)] *)
Definition buffer_in (event : DownstreamEvent) : gen :=
  when_debug (fun self => stamped (fun now =>
      LBufferIn now (buffer_location self) (buffer_index self)
                (has (amux self))))
  (Self (fun self =>
   cells event (range (buffer_length self)) (handoff event))).

(** ** The engine: SimPy's [Environment]

    A process is a generator together with the continuations of the
    processes waiting on it, innermost first.  An entry of the event queue
    is what running the callbacks of the scheduled event does: resume a
    generator (an [Initialize] event or a timeout that fired), or deliver
    the outcome of a finished process to the process that yielded it. *)
Definition stack := list (outcome -> gen).

Inductive action :=
| Resume (g : gen) (s : stack)
| Finish (o : outcome) (s : stack).

Inductive priority := URGENT | NORMAL.

Record item := mkItem {
  at_time : num;
  prio : priority;
  id : nat;
  act : action
}.

Record state := mkState {
  now : num;                               (* env.now *)
  eid : nat;                               (* env._eid, the next event id *)
  queue : list item;                       (* env._queue *)
  buf : AnalogBuffer;                      (* the stage object *)
  stdout : list line;                      (* what was printed *)
  calls : list (num * Z * DownstreamEvent) (* entry-point calls received:
                                              env.now, source index, event *)
}.

Definition prio_rank (p : priority) : nat :=
  match p with URGENT => 0%nat | NORMAL => 1%nat end.

(** The heap order: the tuples (time, priority, event id) compared as
    Python compares tuples, at the first component that differs. *)
Definition before (x y : item) : bool :=
  num_lt (at_time x) (at_time y)
  || (num_eq (at_time x) (at_time y)
      && ((prio_rank (prio x) <? prio_rank (prio y))%nat
          || ((prio_rank (prio x) =? prio_rank (prio y))%nat
              && (id x <=? id y)%nat))).

(** [heappop]: the least entry and the remaining ones.  (With a NaN among
    the times the order is not total and what [heapq] returns depends on
    the layout of its array, which is not modelled.) *)
Fixpoint pop_min (q : list item) : option (item * list item) :=
  match q with
  | [] => None
  | x :: q' =>
      match pop_min q' with
      | None => Some (x, [])
      | Some (y, r) => if before x y then Some (x, q') else Some (y, x :: r)
      end
  end.

(** [env.schedule(event, priority, delay)], for the time [t] that
    [env.now + delay] gave. *)
Definition schedule (a : action) (p : priority) (t : num) (st : state)
    : state :=
  {| now := now st;
     eid := S (eid st);
     queue := queue st ++ [mkItem t p (eid st) a];
     buf := buf st;
     stdout := stdout st;
     calls := calls st |}.

(** [env.now + 0], the time of an event scheduled without a delay. *)
Definition soon (t : num) : num :=
  match t with
  | PInt z => PInt z
  | PFloat f => PFloat (f + 0)%float
  end.

Definition set_buf (b : AnalogBuffer) (st : state) : state :=
  {| now := now st; eid := eid st; queue := queue st; buf := b;
     stdout := stdout st; calls := calls st |}.

Definition put_line (l : line) (st : state) : state :=
  {| now := now st; eid := eid st; queue := queue st; buf := buf st;
     stdout := stdout st ++ [l]; calls := calls st |}.

Definition put_call (c : num * Z * DownstreamEvent) (st : state) : state :=
  {| now := now st; eid := eid st; queue := queue st; buf := buf st;
     stdout := stdout st; calls := calls st ++ [c] |}.

(** Run a generator until its next [yield] or its end ([Process._resume]).
    An exception raised by [env.timeout] or by a [print] leaves the body
    like any other. *)
Fixpoint exec (g : gen) (s : stack) (st : state) : state :=
  match g with
  | Done => schedule (Finish Ok s) NORMAL (soon (now st)) st
  | Raise e => schedule (Finish (Err e) s) NORMAL (soon (now st)) st
  | YieldTimeout d k =>
      match num_add (now st) d with
      | inr t => schedule (Resume k s) NORMAL t st
      | inl e => schedule (Finish (Err e) s) NORMAL (soon (now st)) st
      end
  | YieldProcess sub k =>
      schedule (Resume sub (k :: s)) URGENT (soon (now st)) st
  | Spawn sub k =>
      exec k s (schedule (Resume sub []) URGENT (soon (now st)) st)
  | Self k => exec (k (buf st)) s st
  | Print l k =>
      match l (now st) with
      | inr ln => exec k s (put_line ln st)
      | inl e => schedule (Finish (Err e) s) NORMAL (soon (now st)) st
      end
  | Update f k => exec k s (set_buf (f (buf st)) st)
  | Call idx ev k => exec k s (put_call (now st, idx, ev) st)
  end.

(** [env.process(g)] called from outside any process. *)
Definition process (g : gen) (st : state) : state :=
  schedule (Resume g []) URGENT (soon (now st)) st.

Inductive result :=
| Quiescent (st : state)            (* the queue ran empty *)
| Crashed (e : exn) (st : state)    (* [env.step] re-raised a failure *)
| OutOfFuel (st : state).

Definition at_pop (t : num) (q : list item) (st : state) : state :=
  {| now := t; eid := eid st; queue := q; buf := buf st;
     stdout := stdout st; calls := calls st |}.

(** [env.step]: pop the next event, advance the clock, run its callbacks.
    A failed process nobody waits on makes [step] raise. *)
Definition step (st : state) : option (state + exn * state) :=
  match pop_min (queue st) with
  | None => None
  | Some (it, q) =>
      let st' := at_pop (at_time it) q st in
      match act it with
      | Resume g s => Some (inl (exec g s st'))
      | Finish o [] =>
          match o with
          | Ok => Some (inl st')
          | Err e => Some (inr (e, st'))
          end
      | Finish o (k :: s) => Some (inl (exec (k o) s st'))
      end
  end.

(** [env.run()] with no [until]: step until the queue is empty. *)
Fixpoint run (fuel : nat) (st : state) : result :=
  match fuel with
  | O => match queue st with [] => Quiescent st | _ => OutOfFuel st end
  | S fuel' =>
      match step st with
      | None => Quiescent st
      | Some (inl st') => run fuel' st'
      | Some (inr (e, st')) => Crashed e st'
      end
  end.

(** [simpy.Environment(initial_time=t)] with the stage object [b] in the
    store, and [simpy.Environment()], whose clock starts at the [int] 0. *)
Definition fresh_at (t : num) (b : AnalogBuffer) : state :=
  {| now := t; eid := 0; queue := []; buf := b; stdout := []; calls := [] |}.

Definition fresh (b : AnalogBuffer) : state := fresh_at (PInt 0) b.

(** ** The repository's tests *)

Definition test_event (i : Z) : DownstreamEvent :=
  {| event_number := 1; scintillator := 1; event_length := 1;
     sample_index := i |}.

(** [TestBuffer.setUp]: the stage of the tests. *)
Definition test_buffer : AnalogBuffer :=
  init 0 ring (PInt 1) 5 (PInt 0) true.

(** [TestBuffer.multiple_event_helper], for the events [evs]. *)
Fixpoint multiple_event_helper (evs : list DownstreamEvent) : gen :=
  match evs with
  | [] => Done
  | ev :: evs' =>
      Spawn (buffer_in ev) (timeout (PInt 1) (multiple_event_helper evs'))
  end.

Definition final_time (r : result) : option num :=
  match r with Quiescent st => Some (now st) | _ => None end.

(** ** Timing analysis of generators on a clock of whole ticks

    [span par b t g s T n fx o]: started at virtual time [t], an [int],
    on a stage whose fields other than the counter are those of [b],
    generator [g] with waiting processes [s] (and everything it spawns)
    is finished at time [T], after [n] more events have been popped,
    having performed the effects [fx]; [o] is how the outermost process
    ends.  With [par = false] the generator spawns nothing. *)
Inductive effect :=
| EDrop
| ECall (t idx : Z) (ev : DownstreamEvent)
| EPrint (l : line).

Definition drops (fx : list effect) : Z :=
  Z.of_nat (length (flat_map (fun e => match e with
                                       | EDrop => [tt]
                                       | _ => []
                                       end) fx)).

Definition prints (fx : list effect) : list line :=
  flat_map (fun e => match e with EPrint l => [l] | _ => [] end) fx.

Definition calls_of (fx : list effect) : list (num * Z * DownstreamEvent) :=
  flat_map (fun e => match e with
                     | ECall t i ev => [(PInt t, i, ev)]
                     | _ => []
                     end) fx.

Definition with_count (b : AnalogBuffer) (c : Z) : AnalogBuffer :=
  {| amux := amux b;
     buffer_index := buffer_index b;
     buffer_location := buffer_location b;
     sample_length := sample_length b;
     buffer_length := buffer_length b;
     chain_delay := chain_delay b;
     debug := debug b;
     downstream_events_processed := c |}.

Inductive span (par : bool) (b : AnalogBuffer)
  : Z -> gen -> stack -> Z -> nat -> list effect -> outcome -> Prop :=
| span_done_nil t :
    span par b t Done [] t 1 [] Ok
| span_raise_nil t e :
    span par b t (Raise e) [] t 1 [] (Err e)
| span_done_cons t k s T n fx o :
    span par b t (k Ok) s T n fx o ->
    span par b t Done (k :: s) T (S n) fx o
| span_raise_cons t e k s T n fx o :
    span par b t (k (Err e)) s T n fx o ->
    span par b t (Raise e) (k :: s) T (S n) fx o
| span_timeout t d k s T n fx o :
    0 <= d ->
    span par b (t + d) k s T n fx o ->
    span par b t (YieldTimeout (PInt d) k) s T (S n) fx o
| span_process t sub k s T n fx o :
    span par b t sub (k :: s) T n fx o ->
    span par b t (YieldProcess sub k) s T (S n) fx o
| span_spawn t sub k s T1 n1 fx1 T2 n2 fx2 :
    par = true ->
    span par b t sub [] T1 n1 fx1 Ok ->
    span par b t k s T2 n2 fx2 Ok ->
    span par b t (Spawn sub k) s (Z.max T1 T2) (S n1 + n2) (fx1 ++ fx2) Ok
| span_self t f s T n fx o :
    (forall c, span par b t (f (with_count b c)) s T n fx o) ->
    span par b t (Self f) s T n fx o
| span_print t l ln k s T n fx o :
    l (PInt t) = inr ln ->
    span par b t k s T n fx o ->
    span par b t (Print l k) s T n (EPrint ln :: fx) o
| span_print_raise t l e k s T n fx o :
    l (PInt t) = inl e ->
    span par b t (Raise e) s T n fx o ->
    span par b t (Print l k) s T n fx o
| span_bump t k s T n fx o :
    span par b t k s T n fx o ->
    span par b t (Update bump k) s T n (EDrop :: fx) o
| span_call t idx ev k s T n fx o :
    span par b t k s T n fx o ->
    span par b t (Call idx ev k) s T n (ECall t idx ev :: fx) o.





(** Time and outcome of an activity of the multiplexer. *)
Fixpoint act_time (a : activity) : Z :=
  match a with
  | ADone | AFail _ => 0
  | AWait d k => if d <? 0 then 0 else d + act_time k
  end.

Fixpoint act_outcome (a : activity) : outcome :=
  match a with
  | ADone => Ok
  | AFail e => Err e
  | AWait d k => if d <? 0 then Err (ValueError (PInt d)) else act_outcome k
  end.

Fixpoint act_steps (a : activity) : nat :=
  match a with
  | ADone | AFail _ => 1
  | AWait d k => if d <? 0 then 1 else S (act_steps k)
  end.

Definition finished (o : outcome) (st : state) : result :=
  match o with Ok => Quiescent st | Err e => Crashed e st end.

(** The state after the only scheduled event, due at [t], has been
    popped. *)
Definition popped (t : num) (st : state) : state :=
  {| now := t; eid := S (eid st); queue := [];
     buf := buf st; stdout := stdout st; calls := calls st |}.

(** ** Effects and timing of the methods

    What each method of a stage with the fields of [b], whose delays are
    [int]s, prints, counts and requests, by the time it does so, and how
    many events it pops. *)

Section Effects.

Variable b : AnalogBuffer.

(** What a statement under [if self.debug:] contributes. *)
Definition dbg (l : line) : list effect :=
  if debug b then [EPrint l] else [].

(** Effects of one cell entered at time [t]. *)
Definition fx_unit (t : Z) (event : DownstreamEvent) (i : Z) : list effect :=
  dbg (LUnitStart (PInt t) (buffer_location b) (buffer_index b) i
         (event_number event) (sample_index event) (has (amux b)))
  ++ dbg (LUnitEnd (PInt (t + ticks (sample_length b)))
            (buffer_location b) (buffer_index b) i
            (event_number event) (sample_index event) (has (amux b))).

(** Effects of the cells [l] when the first is entered at time [t]. *)
Fixpoint fx_cells (t : Z) (event : DownstreamEvent) (l : list Z)
    : list effect :=
  match l with
  | [] => []
  | i :: l' =>
      fx_unit t event i
      ++ fx_cells (t + ticks (sample_length b) + ticks (chain_delay b))
           event l'
  end.

(** How the request for [event] ends, if there is a multiplexer. *)
Definition request_outcome (event : DownstreamEvent) : outcome :=
  match amux b with
  | None => Ok
  | Some m => act_outcome (entry_point m (buffer_index b) event)
  end.

(** Time the handoff takes, how [buffer_in] ends after it, its effects,
    and how many events it pops. *)
Definition handoff_time (event : DownstreamEvent) : Z :=
  match amux b with
  | None => 0
  | Some m => act_time (entry_point m (buffer_index b) event)
  end.

Definition handoff_outcome (event : DownstreamEvent) : outcome :=
  match request_outcome event with
  | Ok => Ok
  | Err e => if is_exception e then Ok else Err e
  end.

Definition fx_remove (t : Z) (event : DownstreamEvent) : list effect :=
  dbg (LRemove (PInt t) (buffer_location b) (buffer_index b))
  ++ match amux b with
     | None =>
         dbg (LNoMux (PInt t))
         ++ dbg (LOutOfTail (event_number event) (sample_index event))
         ++ [EDrop]
     | Some m => [ECall t (buffer_index b) event]
     end.

Definition fx_caught (t : Z) (event : DownstreamEvent) : list effect :=
  match request_outcome event with
  | Ok => []
  | Err e =>
      if is_exception e
      then [EPrint (LCaught (PInt (t + handoff_time event)) e)]
      else []
  end.

Definition fx_handoff (t : Z) (event : DownstreamEvent) : list effect :=
  dbg (LCallRemove (PInt t) (buffer_location b) (buffer_index b)
         (has (amux b)))
  ++ fx_remove t event ++ fx_caught t event.

Definition handoff_steps (event : DownstreamEvent) : nat :=
  match amux b with
  | None => 3
  | Some m => 4 + act_steps (entry_point m (buffer_index b) event)
  end.

(** [buffer_in] as a whole. *)
Definition cell_count : Z := Z.of_nat (Z.to_nat (buffer_length b)).

Definition traversal_time : Z :=
  cell_count * (ticks (sample_length b) + ticks (chain_delay b)).

Definition fx_buffer_in (t : Z) (event : DownstreamEvent) : list effect :=
  dbg (LBufferIn (PInt t) (buffer_location b) (buffer_index b)
         (has (amux b)))
  ++ fx_cells t event (range (buffer_length b))
  ++ fx_handoff (t + traversal_time) event.

Definition buffer_in_steps (event : DownstreamEvent) : nat :=
  4 * Z.to_nat (buffer_length b) + handoff_steps event.

(** The timestamp at [t] can be printed if the trace is on. *)
Definition shown (t : Z) : Prop := debug b = true -> fits t = true.

(** The line of a caught failure of the request for [event], made at
    [t], can be printed. *)
Definition caught_shown (t : Z) (event : DownstreamEvent) : Prop :=
  match request_outcome event with
  | Ok => True
  | Err e => is_exception e = true -> fits (t + handoff_time event) = true
  end.

(** Every line of an event put in at [t] can be printed. *)
Definition lines_shown (t : Z) (event : DownstreamEvent) : Prop :=
  shown t /\ shown (t + traversal_time)
  /\ caught_shown (t + traversal_time) event.

End Effects.

(** The delays of the stage are [int]s that are not negative. *)
Definition whole_delays (b : AnalogBuffer) : Prop :=
  exists P D, sample_length b = PInt P /\ chain_delay b = PInt D
              /\ 0 <= P /\ 0 <= D.

(** ** What a run leaves of the stage object *)

Definition last_state (r : result) : state :=
  match r with Quiescent st | Crashed _ st | OutOfFuel st => st end.

(** The fields of the stage other than the counter. *)
Definition config (b : AnalogBuffer) : AnalogBuffer := with_count b 0.

(** From [b] to [b'] nothing but the counter has changed, and the
    counter has not gone down. *)
Definition kept (b b' : AnalogBuffer) : Prop :=
  config b' = config b /\
  downstream_events_processed b <= downstream_events_processed b'.

(** A generator whose assignments to [self] keep every field but the
    counter and never lower the counter, and whose requests to the
    multiplexer carry events among [Q] only. *)
Inductive tame (Q : DownstreamEvent -> Prop) : gen -> Prop :=
| tame_done : tame Q Done
| tame_raise e : tame Q (Raise e)
| tame_yield_timeout d k : tame Q k -> tame Q (YieldTimeout d k)
| tame_process sub k :
    tame Q sub -> (forall o, tame Q (k o)) -> tame Q (YieldProcess sub k)
| tame_spawn sub k : tame Q sub -> tame Q k -> tame Q (Spawn sub k)
| tame_self f : (forall b, tame Q (f b)) -> tame Q (Self f)
| tame_print l k : tame Q k -> tame Q (Print l k)
| tame_update f k :
    (forall b, kept b (f b)) -> tame Q k -> tame Q (Update f k)
| tame_call idx ev k : Q ev -> tame Q k -> tame Q (Call idx ev k).

Definition tame_stack (Q : DownstreamEvent -> Prop) (s : stack) : Prop :=
  Forall (fun k => forall o, tame Q (k o)) s.

Definition tame_item (Q : DownstreamEvent -> Prop) (it : item) : Prop :=
  match act it with
  | Resume g s => tame Q g /\ tame_stack Q s
  | Finish _ s => tame_stack Q s
  end.

(** From [st] to [st'] the stage has kept its fields and every request
    received since carries an event among [Q]. *)
Definition framed (Q : DownstreamEvent -> Prop) (st st' : state) : Prop :=
  kept (buf st) (buf st') /\
  forall c, In c (calls st') -> In c (calls st) \/ Q (snd c).

(** ** Observations of a run *)

(** The exception that ended a run, if one did. *)
Definition raised (r : result) : option exn :=
  match r with Crashed e _ => Some e | _ => None end.




Definition is_caught_line (l : line) : bool :=
  match l with LCaught _ _ => true | _ => false end.








(** ** Example topologies *)

(** A multiplexer that waits 2 ticks and rejects every event, and the
    stage of the tests connected to it. *)
Definition rejecting_amux : AMUX :=
  {| entry_point := fun _ _ => AWait 2 (AFail (AppError "full")) |}.

Definition rejected_buffer : AnalogBuffer :=
  set_amux test_buffer (Some rejecting_amux).







(** Three events about to start: two at time 0 and one at time 2, with
    event ids that do not follow the start times. *)
Definition three_starting : state :=
  {| now := PInt 0; eid := 3;
     queue := [ mkItem (PInt 2) URGENT 0
                  (Resume (buffer_in (test_event 0)) []);
                mkItem (PInt 0) NORMAL 1
                  (Resume (buffer_in (test_event 1)) []);
                mkItem (PInt 0) URGENT 2
                  (Resume (buffer_in (test_event 2)) []) ];
     buf := test_buffer; stdout := []; calls := [] |}.

(** A stage with ten cells of a tenth of a second each, as a [float],
    and the trace off. *)
Definition tenth : float := 0x1.999999999999ap-4.

Definition float_buffer : AnalogBuffer :=
  init 0 ring (PFloat tenth) 10 (PInt 0) false.

(** An [int] too large for [float]: 10^309. *)
Definition huge : Z := 10 ^ 309.

(** A stage with one cell whose per-cell time is that [int], with the
    trace on, and the same stage with the trace off behind the
    multiplexer that rejects. *)
Definition slow_buffer : AnalogBuffer :=
  init 0 ring (PInt huge) 1 (PInt 0) true.

Definition slow_rejected_buffer : AnalogBuffer :=
  set_amux (init 0 ring (PInt huge) 1 (PInt 0) false) (Some rejecting_amux).

(** A generator that disconnects the multiplexer. *)
Definition disconnect : gen := Update (fun b => set_amux b None) Done.

(** ** Further observations of a run *)









(** The stage of the tests with the trace off, behind the multiplexer
    that rejects. *)
Definition quiet_rejected_buffer : AnalogBuffer :=
  set_amux (init 0 ring (PInt 1) 5 (PInt 0) false) (Some rejecting_amux).

(** A process that waits for the handoff of [event] to the multiplexer
    [m] and goes on with [k]. *)
Definition awaiting (event : DownstreamEvent) (m : AMUX)
    (k : outcome -> gen) : gen :=
  YieldProcess (remove_from_buffer event (Some m)) k.

(** A continuation that reports the outcome it is resumed with, as the
    handler of [buffer_in] reports a failure. *)
Definition report : outcome -> gen :=
  fun o => match o with
           | Ok => Print (plain (LOutOfTail 0 0)) Done
           | Err e => Print (stamped (fun now => LCaught now e)) Done
           end.

(** The clock after one cell entered when it read [t]: the cell is a
    process of its own, started by an event without delay, and waits the
    per-cell time; its end is another event without delay, and the
    chaining overhead follows.  Each step is one Python addition. *)
Definition cell_clock (P D : num) (t : num) : exn + num :=
  match num_add (soon t) P with
  | inr t1 => num_add (soon t1) D
  | inl e => inl e
  end.

(** The clock after [n] cells. *)
Fixpoint walk (n : nat) (P D : num) (t : num) : exn + num :=
  match n with
  | O => inr t
  | S n' =>
      match cell_clock P D t with
      | inr t' => walk n' P D t'
      | inl e => inl e
      end
  end.

(** * Theorems *)

(** Closed statements about one run are settled by running it. *)
Ltac by_running :=
  cbv zeta;
  repeat match goal with
         | |- exists _, _ => eexists
         | |- _ /\ _ => split
         end;
  vm_compute; reflexivity.

(** ** The tests of the repository on the model *)

Example test_single_event :
  final_time (run 100 (process (buffer_in (test_event 0)) (fresh test_buffer)))
  = Some (PInt 5).
Proof. vm_compute. reflexivity. Qed.

Example test_multiple_events :
  final_time (run 1000 (process (multiple_event_helper
                                   (map test_event (range 5)))
                                (fresh test_buffer)))
  = Some (PInt 9).
Proof. vm_compute. reflexivity. Qed.

(** ** Numbers *)


Lemma fits_iff z : fits z = true <-> - float_max_int < z < float_max_int.
Proof. unfold fits. rewrite Z.ltb_lt. lia. Qed.

Lemma fits_between lo hi u :
  fits lo = true -> fits hi = true -> lo <= u <= hi -> fits u = true.
Proof. rewrite !fits_iff. lia. Qed.

Lemma shown_between b lo hi u :
  shown b lo -> shown b hi -> lo <= u <= hi -> shown b u.
Proof.
  unfold shown. intros Hlo Hhi Hu Hd.
  apply (fits_between lo hi); auto.
Qed.

Lemma stamped_fits f t :
  fits t = true -> stamped f (PInt t) = inr (f (PInt t)).
Proof. intros H. unfold stamped, printable. now rewrite H. Qed.

Lemma stamped_overflow f t :
  fits t = false -> stamped f (PInt t) = inl OverflowError.
Proof. intros H. unfold stamped, printable. now rewrite H. Qed.

(** ** Basic facts about the engine *)

Lemma run_empty fuel st : queue st = [] -> run fuel st = Quiescent st.
Proof.
  intros Hq. destruct fuel as [|fuel]; simpl.
  - now rewrite Hq.
  - unfold step. now rewrite Hq.
Qed.

Lemma step_single a p t st :
  queue st = [] ->
  step (schedule a p t st) =
  match a with
  | Resume g s => Some (inl (exec g s (popped t st)))
  | Finish Ok [] => Some (inl (popped t st))
  | Finish (Err e) [] => Some (inr (e, popped t st))
  | Finish o (k :: s) => Some (inl (exec (k o) s (popped t st)))
  end.
Proof.
  intros Hq. unfold step, schedule. simpl. rewrite Hq. simpl.
  destruct a as [g s|o [|k s]]; try reflexivity.
  destruct o; reflexivity.
Qed.

Lemma drops_cons_drop fx : drops (EDrop :: fx) = 1 + drops fx.
Proof. unfold drops. cbn [flat_map app length]. lia. Qed.


Lemma prints_app fx1 fx2 : prints (fx1 ++ fx2) = prints fx1 ++ prints fx2.
Proof. unfold prints. apply flat_map_app. Qed.


Lemma bump_with_count b c : bump (with_count b c) = with_count b (c + 1).
Proof. reflexivity. Qed.

Lemma with_count_self b : with_count b (downstream_events_processed b) = b.
Proof. destruct b; reflexivity. Qed.

(** ** A process on its own

    A generator that spawns nothing keeps one entry in the queue; the run
    performs its effects in order and ends when it ends, normally or with
    the exception that left it. *)
Lemma run_linear b t g s T n fx o :
  span false b t g s T n fx o ->
  forall st c fuel,
    now st = PInt t -> queue st = [] -> buf st = with_count b c ->
    (n <= fuel)%nat ->
    exists st',
      run fuel (exec g s st) = finished o st' /\
      now st' = PInt T /\ queue st' = [] /\
      buf st' = with_count b (c + drops fx) /\
      stdout st' = stdout st ++ prints fx /\
      calls st' = calls st ++ calls_of fx.
Proof.
  induction 1 as
    [ t | t e | t k s T n fx o _ IH | t e k s T n fx o _ IH
    | t d k s T n fx o Hd _ IH | t sub k s T n fx o _ IH
    | t sub k s T1 n1 fx1 T2 n2 fx2 Hpar _ _ _ _
    | t f s T n fx o _ IH | t l ln k s T n fx o Hl _ IH
    | t l e k s T n fx o Hl _ IH
    | t k s T n fx o _ IH | t idx ev k s T n fx o _ IH ];
    intros st c fuel Hnow Hq Hbuf Hfuel; cbn [exec]; rewrite ?Hnow;
    cbn [soon num_add].
  - destruct fuel as [|fuel]; [lia|]. cbn [run].
    rewrite step_single by assumption.
    exists (popped (PInt t) st). rewrite run_empty by reflexivity.
    simpl. rewrite Hbuf, !app_nil_r.
    repeat split; try reflexivity. f_equal; unfold drops; simpl; lia.
  - destruct fuel as [|fuel]; [lia|]. cbn [run].
    rewrite step_single by assumption.
    exists (popped (PInt t) st). simpl. rewrite Hbuf, !app_nil_r.
    repeat split; try reflexivity. f_equal; unfold drops; simpl; lia.
  - destruct fuel as [|fuel]; [lia|]. cbn [run].
    rewrite step_single by assumption.
    destruct (IH (popped (PInt t) st) c fuel) as (st' & H); simpl;
      try lia; auto.
    exists st'. exact H.
  - destruct fuel as [|fuel]; [lia|]. cbn [run].
    rewrite step_single by assumption.
    destruct (IH (popped (PInt t) st) c fuel) as (st' & H); simpl;
      try lia; auto.
    exists st'. exact H.
  - destruct fuel as [|fuel]; [lia|]. cbn [run].
    rewrite step_single by assumption.
    destruct (IH (popped (PInt (t + d)) st) c fuel) as (st' & H); simpl;
      try lia; auto.
    exists st'. exact H.
  - destruct fuel as [|fuel]; [lia|]. cbn [run].
    rewrite step_single by assumption.
    destruct (IH (popped (PInt t) st) c fuel) as (st' & H); simpl;
      try lia; auto.
    exists st'. exact H.
  - discriminate.
  - rewrite Hbuf. apply (IH c st c fuel); assumption.
  - rewrite Hl.
    destruct (IH (put_line ln st) c fuel)
      as (st' & Hr & Hn & Hq' & Hb & Ho & Hc); simpl; auto.
    exists st'. simpl in Ho.
    repeat split; auto. rewrite Ho, <- app_assoc. reflexivity.
  - rewrite Hl.
    destruct (IH st c fuel Hnow Hq Hbuf Hfuel) as (st' & H).
    cbn [exec] in H. rewrite Hnow in H. cbn [soon] in H.
    exists st'. exact H.
  - destruct (IH (set_buf (bump (buf st)) st) (c + 1) fuel)
      as (st' & Hr & Hn & Hq' & Hb & Ho & Hc); simpl; auto.
    { rewrite Hbuf. apply bump_with_count. }
    exists st'. rewrite drops_cons_drop.
    repeat split; auto. rewrite Hb. f_equal. lia.
  - destruct (IH (put_call (PInt t, idx, ev) st) c fuel)
      as (st' & Hr & Hn & Hq' & Hb & Ho & Hc); simpl; auto.
    exists st'. simpl in Hc.
    repeat split; auto. rewrite Hc, <- app_assoc. reflexivity.
Qed.

Lemma run_process_linear b t g T n fx o st c fuel :
  span false b t g [] T n fx o ->
  now st = PInt t -> queue st = [] -> buf st = with_count b c ->
  (S n <= fuel)%nat ->
  exists st',
    run fuel (process g st) = finished o st' /\
    now st' = PInt T /\ queue st' = [] /\
    buf st' = with_count b (c + drops fx) /\
    stdout st' = stdout st ++ prints fx /\
    calls st' = calls st ++ calls_of fx.
Proof.
  intros Hs Hnow Hq Hbuf Hfuel. destruct fuel as [|fuel]; [lia|].
  unfold process. cbn [run]. rewrite step_single by assumption.
  rewrite Hnow. cbn [soon].
  apply (run_linear _ _ _ _ _ _ _ _ Hs (popped (PInt t) st) c fuel); simpl;
    auto; lia.
Qed.

(** ** Timing of the methods of a stage with whole delays *)

Section Methods.

Variable par : bool.
Variable b : AnalogBuffer.
Variables P D : Z.
Hypothesis HP : sample_length b = PInt P.
Hypothesis HD : chain_delay b = PInt D.
Hypothesis HP0 : 0 <= P.
Hypothesis HD0 : 0 <= D.

Lemma span_when_debug f k t s T n fx o :
  (forall c, f (with_count b c) = f b) ->
  shown b t ->
  span par b t k s T n fx o ->
  span par b t (when_debug (fun self => stamped (f self)) k) s T n
       (dbg b (f b (PInt t)) ++ fx) o.
Proof.
  intros Hf Hs H. unfold when_debug, dbg. apply span_self. intros c.
  cbn [debug with_count]. rewrite Hf.
  destruct (debug b) eqn:Hd; simpl; [|exact H].
  apply span_print; [|exact H]. apply stamped_fits. now apply Hs.
Qed.

Lemma span_timeout_ok d k t s T n fx o :
  0 <= d ->
  span par b (t + d) k s T n fx o ->
  span par b t (timeout (PInt d) k) s T (S n) fx o.
Proof.
  intros Hd H. unfold timeout, lt0, num_lt.
  destruct (Z.ltb_spec d 0); [lia|]. now apply span_timeout.
Qed.

Lemma span_sample_and_hold_unit event i t k s T n fx o :
  shown b t -> shown b (t + P) ->
  span par b (t + P) (k Ok) s T n fx o ->
  span par b t (sample_and_hold_unit event i) (k :: s) T (S (S n))
       (fx_unit b t event i ++ fx) o.
Proof.
  intros Hs1 Hs2 H. unfold sample_and_hold_unit, fx_unit.
  rewrite HP. cbn [ticks]. rewrite <- app_assoc.
  apply (span_when_debug (fun self now => LUnitStart now _ _ _ _ _ _));
    [reflexivity|assumption|].
  apply span_self. intros c. cbn [sample_length with_count]. rewrite HP.
  apply span_timeout_ok; [assumption|].
  apply (span_when_debug (fun self now => LUnitEnd now _ _ _ _ _ _));
    [reflexivity|assumption|].
  now apply span_done_cons.
Qed.

Lemma span_cells event rest s T n fx o l :
  forall t,
    shown b t ->
    shown b (t + Z.of_nat (length l) * (P + D)) ->
    span par b (t + Z.of_nat (length l) * (P + D)) rest s T n fx o ->
    span par b t (cells event l rest) s T (4 * length l + n)
         (fx_cells b t event l ++ fx) o.
Proof.
  induction l as [|i l IH]; intros t Hs1 Hs2 H.
  - simpl in *. replace (t + 0) with t in H by lia. exact H.
  - cbn [cells fx_cells]. rewrite HP, HD. cbn [ticks].
    rewrite <- app_assoc.
    replace (4 * length (i :: l) + n)%nat
      with (S (S (S (S (4 * length l + n))))) by (simpl; lia).
    assert (Hend : t + P + D + Z.of_nat (length l) * (P + D)
                   = t + Z.of_nat (length (i :: l)) * (P + D))
      by (simpl length; lia).
    assert (Hge : 0 <= Z.of_nat (length l) * (P + D)) by nia.
    apply span_process. apply span_sample_and_hold_unit.
    + assumption.
    + apply (shown_between b t _ _ Hs1 Hs2). lia.
    + apply span_self. intros c. cbn [chain_delay with_count]. rewrite HD.
      apply span_timeout_ok; [assumption|].
      apply IH.
      * apply (shown_between b t _ _ Hs1 Hs2). lia.
      * now rewrite Hend.
      * now rewrite Hend.
Qed.

Lemma span_activity a : forall t k s T n fx o,
  span par b (t + act_time a) (k (act_outcome a)) s T n fx o ->
  span par b t (activity_gen a) (k :: s) T (act_steps a + n) fx o.
Proof.
  induction a as [|e|d a IH]; intros t k s T n fx o H; simpl in *.
  - replace (t + 0) with t in H by lia. now apply span_done_cons.
  - replace (t + 0) with t in H by lia. now apply span_raise_cons.
  - unfold timeout, lt0, num_lt. destruct (Z.ltb_spec d 0).
    + replace (t + 0) with t in H by lia. now apply span_raise_cons.
    + simpl. apply span_timeout; [assumption|]. apply IH.
      now rewrite <- Z.add_assoc.
Qed.

Lemma span_handoff event t :
  shown b t -> caught_shown b t event ->
  span par b t (handoff event) [] (t + handoff_time b event)
       (handoff_steps b event) (fx_handoff b t event)
       (handoff_outcome b event).
Proof.
  intros Hs Hc.
  unfold caught_shown, handoff_outcome, handoff, fx_handoff, fx_remove,
    fx_caught, request_outcome, handoff_time, handoff_steps in *.
  apply (span_when_debug (fun self now => LCallRemove now _ _ _));
    [reflexivity|assumption|].
  apply span_self. intros c. cbn [amux with_count].
  unfold remove_from_buffer. rewrite <- app_assoc.
  destruct (amux b) as [m|].
  - apply span_process.
    apply (span_when_debug (fun self now => LRemove now _ _));
      [reflexivity|assumption|].
    apply span_self. intros c'. cbn [buffer_index with_count].
    cbn [app]. apply span_call. apply span_process.
    replace (S (S (act_steps (entry_point m (buffer_index b) event))))
      with (act_steps (entry_point m (buffer_index b) event) + 2)%nat by lia.
    apply span_activity.
    destruct (act_outcome (entry_point m (buffer_index b) event)) as [|e].
    + apply span_done_cons. apply span_done_nil.
    + apply span_raise_cons. destruct (is_exception e).
      * apply span_print; [|apply span_done_nil].
        apply stamped_fits. now apply Hc.
      * apply span_raise_nil.
  - apply span_process.
    apply (span_when_debug (fun self now => LRemove now _ _));
      [reflexivity|assumption|].
    apply span_self. intros c'. cbn [debug with_count]. unfold dbg.
    rewrite Z.add_0_r, app_nil_r.
    destruct (debug b) eqn:Hd; cbn [app].
    + apply span_print; [apply stamped_fits; now apply Hs|].
      apply (span_print _ _ _ (plain (LOutOfTail _ _))); [reflexivity|].
      apply span_bump. apply span_done_cons. apply span_done_nil.
    + apply span_bump. apply span_done_cons. apply span_done_nil.
Qed.

Lemma length_range n : length (range n) = Z.to_nat n.
Proof. unfold range. now rewrite length_map, length_seq. Qed.

Lemma traversal_time_eq : traversal_time b = cell_count b * (P + D).
Proof. unfold traversal_time. now rewrite HP, HD. Qed.


Lemma span_buffer_in event t :
  lines_shown b t event ->
  span par b t (buffer_in event) []
       (t + traversal_time b + handoff_time b event)
       (buffer_in_steps b event) (fx_buffer_in b t event)
       (handoff_outcome b event).
Proof.
  intros (Hs1 & Hs2 & Hc). unfold buffer_in, fx_buffer_in, buffer_in_steps.
  rewrite traversal_time_eq in *. unfold cell_count in *.
  apply (span_when_debug (fun self now => LBufferIn now _ _ _));
    [reflexivity|assumption|].
  apply span_self. intros c. cbn [buffer_length with_count].
  rewrite <- (length_range (buffer_length b)) in *.
  apply span_cells; try assumption.
  now apply span_handoff.
Qed.

End Methods.

(** ** The event queue *)



Lemma pop_min_none q : pop_min q = None -> q = [].
Proof.
  destruct q as [|x q]; [reflexivity|]. simpl.
  destruct (pop_min q) as [[y r]|]; [|discriminate].
  destruct (before x y); discriminate.
Qed.


(** ** Facts about spans *)

















(** ** Processes running together *)



(** ** Generators that write to the counter only *)

Lemma kept_refl b : kept b b.
Proof. split; [reflexivity|lia]. Qed.

Lemma kept_trans b1 b2 b3 : kept b1 b2 -> kept b2 b3 -> kept b1 b3.
Proof. intros [H1 H2] [H3 H4]. split; [congruence|lia]. Qed.

Lemma kept_bump b : kept b (bump b).
Proof. split; [reflexivity|simpl; lia]. Qed.

Lemma config_kept b b' :
  config b' = config b ->
  amux b' = amux b /\ buffer_index b' = buffer_index b /\
  buffer_location b' = buffer_location b /\
  sample_length b' = sample_length b /\
  buffer_length b' = buffer_length b /\
  chain_delay b' = chain_delay b /\ debug b' = debug b.
Proof.
  destruct b, b'. unfold config, with_count. simpl.
  intros H. injection H as -> -> -> -> -> -> ->. repeat split.
Qed.

Section Frame.
Variable Q : DownstreamEvent -> Prop.

Lemma framed_refl st : framed Q st st.
Proof. split; [apply kept_refl|]. intros c Hc. now left. Qed.

Lemma framed_trans st1 st2 st3 :
  framed Q st1 st2 -> framed Q st2 st3 -> framed Q st1 st3.
Proof.
  intros [H1 H2] [H3 H4]. split; [eapply kept_trans; eassumption|].
  intros c Hc. destruct (H4 c Hc) as [H|H]; [now apply H2|now right].
Qed.

Lemma framed_schedule a p t st : framed Q st (schedule a p t st).
Proof. split; [apply kept_refl|]. intros c Hc. now left. Qed.

Lemma tame_items_schedule a p t st :
  Forall (tame_item Q) (queue st) ->
  tame_item Q (mkItem t p (eid st) a) ->
  Forall (tame_item Q) (queue (schedule a p t st)).
Proof.
  intros Hq Ha. simpl. apply Forall_app. split; [exact Hq|].
  constructor; [exact Ha|constructor].
Qed.

Lemma exec_tame g :
  tame Q g ->
  forall s st,
    tame_stack Q s -> Forall (tame_item Q) (queue st) ->
    framed Q st (exec g s st) /\
    Forall (tame_item Q) (queue (exec g s st)).
Proof.
  induction 1 as [|e|d k Hk IH|sub k Hsub _ Hk _|sub k Hsub _ Hk IH
                 |f Hf IH|l k Hk IH|f k Hf Hk IH|idx ev k Hev Hk IH];
    intros s st Hs Hq; cbn [exec].
  - split; [apply framed_schedule|]. now apply tame_items_schedule.
  - split; [apply framed_schedule|]. now apply tame_items_schedule.
  - destruct (num_add (now st) d);
      (split; [apply framed_schedule|]); apply tame_items_schedule; auto.
    split; assumption.
  - split; [apply framed_schedule|]. apply tame_items_schedule; auto.
    split; [assumption|]. constructor; assumption.
  - destruct (IH s (schedule (Resume sub []) URGENT (soon (now st)) st) Hs)
      as [Hf Hq'].
    + apply tame_items_schedule; auto. split; [assumption|constructor].
    + split; [|exact Hq'].
      eapply framed_trans; [apply framed_schedule|exact Hf].
  - apply IH; assumption.
  - destruct (l (now st)).
    + split; [apply framed_schedule|]. now apply tame_items_schedule.
    + destruct (IH s (put_line l0 st) Hs Hq) as [Hf Hq'].
      split; [|exact Hq']. exact Hf.
  - destruct (IH s (set_buf (f (buf st)) st) Hs Hq) as [[Hkept Hc] Hq'].
    split; [|exact Hq']. split; [|exact Hc].
    eapply kept_trans; [apply Hf|exact Hkept].
  - destruct (IH s (put_call (now st, idx, ev) st) Hs Hq) as [[Hkept Hc] Hq'].
    split; [|exact Hq']. split; [exact Hkept|].
    intros c Hin. destruct (Hc c Hin) as [H|H]; [|now right].
    cbn [calls put_call] in H. apply in_app_or in H as [H|[<-|[]]].
    + now left.
    + now right.
Qed.

Lemma pop_min_perm q : forall it r,
  pop_min q = Some (it, r) -> Permutation q (it :: r).
Proof.
  induction q as [|x q IH]; intros it r H; [discriminate|].
  simpl in H. destruct (pop_min q) as [[y r']|] eqn:Hp.
  - specialize (IH y r' eq_refl).
    destruct (before x y); injection H as <- <-.
    + reflexivity.
    + rewrite IH. apply perm_swap.
  - injection H as <- <-. apply pop_min_none in Hp. now subst q.
Qed.

Lemma framed_at_pop t q st : framed Q st (at_pop t q st).
Proof. split; [apply kept_refl|]. intros c Hc. now left. Qed.

Lemma step_tame st :
  Forall (tame_item Q) (queue st) ->
  match step st with
  | None => True
  | Some (inl st') =>
      framed Q st st' /\ Forall (tame_item Q) (queue st')
  | Some (inr (_, st')) => framed Q st st'
  end.
Proof.
  intros Hq. unfold step.
  destruct (pop_min (queue st)) as [[it q]|] eqn:Hpop; [|exact I].
  apply pop_min_perm in Hpop.
  apply (Permutation_Forall Hpop) in Hq.
  inversion Hq as [|? ? Hit Hq']; subst.
  unfold tame_item in Hit.
  destruct (act it) as [g s|o [|k s]].
  - destruct Hit as [Hg Hs].
    destruct (exec_tame g Hg s (at_pop (at_time it) q st) Hs Hq')
      as [Hf Hq''].
    split; [|exact Hq''].
    eapply framed_trans; [apply framed_at_pop|exact Hf].
  - destruct o; [split; [apply framed_at_pop|assumption]
                |apply framed_at_pop].
  - inversion Hit as [|? ? Hk Hs]; subst.
    destruct (exec_tame (k o) (Hk o) s (at_pop (at_time it) q st) Hs Hq')
      as [Hf Hq''].
    split; [|exact Hq''].
    eapply framed_trans; [apply framed_at_pop|exact Hf].
Qed.

Lemma run_tame fuel : forall st,
  Forall (tame_item Q) (queue st) ->
  framed Q st (last_state (run fuel st)).
Proof.
  induction fuel as [|fuel IH]; intros st Hq; simpl.
  - destruct (queue st); apply framed_refl.
  - pose proof (step_tame st Hq) as H.
    destruct (step st) as [[st'|[e st']]|]; simpl.
    + destruct H as [H1 H2]. eapply framed_trans; [exact H1|now apply IH].
    + exact H.
    + apply framed_refl.
Qed.

Lemma process_tame g st :
  tame Q g -> Forall (tame_item Q) (queue st) ->
  Forall (tame_item Q) (queue (process g st)).
Proof.
  intros Hg Hq. apply tame_items_schedule; [exact Hq|].
  split; [exact Hg|constructor].
Qed.

Lemma run_process_tame fuel g st :
  tame Q g -> Forall (tame_item Q) (queue st) ->
  framed Q st (last_state (run fuel (process g st))).
Proof.
  intros Hg Hq.
  eapply framed_trans; [apply framed_schedule|].
  apply run_tame. now apply process_tame.
Qed.

Lemma tame_timeout d k : tame Q k -> tame Q (timeout d k).
Proof. intros H. unfold timeout. destruct (lt0 d); now constructor. Qed.

Lemma tame_when_debug l k : tame Q k -> tame Q (when_debug l k).
Proof.
  intros H. unfold when_debug. constructor. intros b.
  destruct (debug b); [now constructor|assumption].
Qed.

Lemma tame_activity a : tame Q (activity_gen a).
Proof.
  induction a as [|e|d a IH]; simpl; try constructor.
  now apply tame_timeout.
Qed.

Lemma tame_sample_and_hold_unit event i :
  tame Q (sample_and_hold_unit event i).
Proof.
  unfold sample_and_hold_unit. apply tame_when_debug. constructor. intros b.
  apply tame_timeout. apply tame_when_debug. constructor.
Qed.

Lemma tame_remove_from_buffer event mux :
  Q event -> tame Q (remove_from_buffer event mux).
Proof.
  intros HQ. unfold remove_from_buffer. apply tame_when_debug.
  destruct mux as [m|]; constructor; intros b.
  - constructor; [exact HQ|]. constructor; [apply tame_activity|].
    intros [|e]; constructor.
  - destruct (debug b); repeat constructor; apply kept_bump.
Qed.

Lemma tame_handoff event : Q event -> tame Q (handoff event).
Proof.
  intros HQ. unfold handoff. apply tame_when_debug. constructor. intros b.
  constructor; [now apply tame_remove_from_buffer|].
  intros [|e]; [constructor|]. destruct (is_exception e); repeat constructor.
Qed.

Lemma tame_cells event rest l : tame Q rest -> tame Q (cells event l rest).
Proof.
  intros Hr. induction l as [|i l IH]; simpl; [assumption|].
  constructor; [apply tame_sample_and_hold_unit|].
  intros [|e]; [|constructor]. constructor. intros b. now apply tame_timeout.
Qed.

Lemma tame_buffer_in event : Q event -> tame Q (buffer_in event).
Proof.
  intros HQ. unfold buffer_in. apply tame_when_debug. constructor. intros b.
  apply tame_cells. now apply tame_handoff.
Qed.

Lemma tame_multiple_event_helper evs :
  Forall Q evs -> tame Q (multiple_event_helper evs).
Proof.
  induction 1 as [|ev evs Hev _ IH]; simpl; [constructor|].
  constructor; [now apply tame_buffer_in|]. now apply tame_timeout.
Qed.

End Frame.

(** ** Effects of [buffer_in], by kind *)

















(** ** The trace of the cells *)





(** ** Properties of the stage *)





(** ** Several events on one stage *)












(** ** Traversal time and the multiplexer *)





(** C8 fails where a timestamp cannot be printed.  A stage is built with
    one cell, per-cell time 10^309 and the trace on, and an event is put
    in at time 0.  The cell waits its time and then builds the line that
    says it is done: [self.env.now*1e6] raises [OverflowError] in
    [sample_and_hold_unit], outside the [try] of [buffer_in].  The cell
    and the cell loop end with that exception and the run stops at time
    10^309 with two lines printed, before any handoff: nothing was
    counted and no request made.  The cell fails in the same way when it
    is run on its own. *)
Theorem cells_fail_overflow :
  (exists st',
     run 100 (process (buffer_in (test_event 0)) (fresh slow_buffer))
     = Crashed OverflowError st' /\
     now st' = PInt huge /\
     stdout st' = [ LBufferIn (PInt 0) ring 0 false;
                    LUnitStart (PInt 0) ring 0 0 1 0 false ] /\
     calls st' = [] /\
     downstream_events_processed (buf st') = 0) /\
  (exists st',
     run 100 (process (sample_and_hold_unit (test_event 0) 0)
                (fresh slow_buffer))
     = Crashed OverflowError st' /\
     now st' = PInt huge /\
     stdout st' = [ LUnitStart (PInt 0) ring 0 0 1 0 false ]).
Proof. by_running. Qed.

(** ** Frame *)

(** The frame property is one of the methods, not of the model: a
    generator that assigns to [self.amux] changes the field. *)
Example disconnect_changes_amux :
  amux (buf (fresh rejected_buffer)) = Some rejecting_amux /\
  amux (buf (last_state (run 10 (process disconnect
                                   (fresh rejected_buffer))))) = None.
Proof. split; reflexivity. Qed.

(** C9.  A cell, a handoff or a whole [buffer_in] for [event] is started
    in an environment whose other processes, if any, write to the
    counter of the stage only and make requests for events among [Q]
    only, and the environment is run for any number of steps, to
    quiescence, to an exception or neither.  The fields [amux],
    [buffer_index], [buffer_location], [sample_length], [buffer_length],
    [chain_delay] and [debug] of the stage are then what they were, and
    the counter is not lower.  The event is never written to: every
    request the multiplexer has received since is for an event among [Q]
    as it was put in, and with an empty queue and [Q] the event itself,
    for [event] with every field as it was. *)
Theorem stage_frame (Q : DownstreamEvent -> Prop) (fuel : nat) (st : state)
    (event : DownstreamEvent) (unit_index : Z) (mux : option AMUX)
    (g : gen) :
  Forall (tame_item Q) (queue st) ->
  Q event ->
  In g [ sample_and_hold_unit event unit_index;
         remove_from_buffer event mux;
         buffer_in event ] ->
  let st' := last_state (run fuel (process g st)) in
  amux (buf st') = amux (buf st) /\
  buffer_index (buf st') = buffer_index (buf st) /\
  buffer_location (buf st') = buffer_location (buf st) /\
  sample_length (buf st') = sample_length (buf st) /\
  buffer_length (buf st') = buffer_length (buf st) /\
  chain_delay (buf st') = chain_delay (buf st) /\
  debug (buf st') = debug (buf st) /\
  downstream_events_processed (buf st)
  <= downstream_events_processed (buf st') /\
  forall c, In c (calls st') -> In c (calls st) \/ Q (snd c).
Proof.
  intros Hq HQ Hg st'.
  assert (Ht : tame Q g).
  { destruct Hg as [<-|[<-|[<-|[]]]].
    - apply tame_sample_and_hold_unit.
    - now apply tame_remove_from_buffer.
    - now apply tame_buffer_in. }
  destruct (run_process_tame Q fuel g st Ht Hq) as [[Hc Hn] Hcalls].
  destruct (config_kept _ _ Hc) as (H1 & H2 & H3 & H4 & H5 & H6 & H7).
  subst st'. repeat split; assumption.
Qed.

Lemma stage_frame_witness :
  let st' := last_state (run 100 (process (buffer_in (test_event 0))
                                    (fresh rejected_buffer))) in
  amux (buf st') = Some rejecting_amux /\
  buffer_index (buf st') = 0 /\
  buffer_location (buf st') = ring /\
  sample_length (buf st') = PInt 1 /\
  buffer_length (buf st') = 5 /\
  chain_delay (buf st') = PInt 0 /\
  debug (buf st') = true /\
  0 <= downstream_events_processed (buf st') /\
  forall c, In c (calls st') -> In c [] \/ test_event 0 = snd c.
Proof.
  apply (stage_frame (eq (test_event 0)) 100 (fresh rejected_buffer)
           (test_event 0) 0 None (buffer_in (test_event 0)));
    [ constructor | reflexivity | simpl; auto ].
Defined.


(** ** Configurations the constructor does not refuse *)












(** ** What is printed *)

Lemma prints_dbg_off b l : debug b = false -> prints (dbg b l) = [].
Proof. intros H. unfold dbg. now rewrite H. Qed.


Lemma prints_fx_cells_off b event l : forall t,
  debug b = false -> prints (fx_cells b t event l) = [].
Proof.
  induction l as [|i l IH]; intros t Hd; [reflexivity|].
  cbn [fx_cells]. unfold fx_unit.
  now rewrite !prints_app, !prints_dbg_off, IH.
Qed.

Lemma prints_fx_buffer_in_off b t event :
  debug b = false ->
  prints (fx_buffer_in b t event)
  = prints (fx_caught b (t + traversal_time b) event).
Proof.
  intros Hd. unfold fx_buffer_in, fx_handoff, fx_remove.
  rewrite !prints_app, !prints_dbg_off, prints_fx_cells_off by assumption.
  destruct (amux b) as [m|]; [reflexivity|].
  now rewrite !prints_app, !prints_dbg_off.
Qed.

(** X4.  The line that reports a caught failure is not under
    [if self.debug]: a stage with the trace off prints nothing for an
    event that is dropped or accepted, and exactly the
    [Caught failed event] line, stamped with the time the request
    ended, for an event the multiplexer fails for with an instance of
    [Exception].  Clock and delays are whole ticks, the failure is an
    instance of [Exception] and its timestamp can be printed. *)
Theorem trace_off_prints_failures_only (st : state)
    (event : DownstreamEvent) (t P D : Z) :
  queue st = [] ->
  now st = PInt t ->
  debug (buf st) = false ->
  sample_length (buf st) = PInt P ->
  chain_delay (buf st) = PInt D ->
  0 <= P ->
  0 <= D ->
  handoff_outcome (buf st) event = Ok ->
  caught_shown (buf st) (t + traversal_time (buf st)) event ->
  exists fuel0, forall fuel, (fuel0 <= fuel)%nat ->
  exists st',
    run fuel (process (buffer_in event) st) = Quiescent st' /\
    stdout st'
    = stdout st
      ++ match request_outcome (buf st) event with
         | Ok => []
         | Err e => [LCaught (now st') e]
         end.
Proof.
  intros Hq Hnow Hd HP HD HP0 HD0 Ho Hc.
  assert (Hs : lines_shown (buf st) t event).
  { repeat split; try assumption; intros H; congruence. }
  exists (S (buffer_in_steps (buf st) event)). intros fuel Hfuel.
  destruct (run_process_linear (buf st) t (buffer_in event) _ _ _ _ st
              (downstream_events_processed (buf st)) fuel
              (span_buffer_in false (buf st) P D HP HD HP0 HD0 event t Hs)
              Hnow Hq (eq_sym (with_count_self _)) Hfuel)
    as (st' & Hrun & Hnow' & _ & _ & Hout & _).
  exists st'. rewrite Ho in Hrun. split; [exact Hrun|].
  rewrite Hout, prints_fx_buffer_in_off, Hnow' by assumption.
  unfold fx_caught. unfold handoff_outcome in Ho.
  destruct (request_outcome (buf st) event) as [|e]; [reflexivity|].
  destruct (is_exception e); [reflexivity|discriminate].
Qed.

Lemma trace_off_prints_failures_only_witness :
  exists fuel0, forall fuel, (fuel0 <= fuel)%nat ->
  exists st',
    run fuel (process (buffer_in (test_event 1))
                (fresh quiet_rejected_buffer))
    = Quiescent st' /\
    stdout st' = [] ++ [LCaught (now st') (AppError "full")].
Proof.
  apply (trace_off_prints_failures_only (fresh quiet_rejected_buffer)
           (test_event 1) 0 1 0);
    [ reflexivity | reflexivity | reflexivity | reflexivity | reflexivity
    | lia | lia | reflexivity | intros _; reflexivity ].
Defined.

(** The run of the witness: one line, at time 7, two ticks after the
    request was made. *)
Example quiet_rejected_run :
  let r := run 100 (process (buffer_in (test_event 1))
                      (fresh quiet_rejected_buffer)) in
  raised r = None /\
  stdout (last_state r) = [LCaught (PInt 7) (AppError "full")] /\
  calls (last_state r) = [(PInt 5, 0, test_event 1)].
Proof. by_running. Qed.






(** ** The helper of the tests on any stage *)










(** ** Handoff on its own *)







(** The run of the witness: the waiting process reports the failure of
    the request at time 2, when the request ended. *)
Example awaiting_run :
  let r := run 100 (process (awaiting (test_event 0) rejecting_amux report)
                      (fresh rejected_buffer)) in
  raised r = None /\
  stdout (last_state r) = [ LRemove (PInt 0) ring 0;
                            LCaught (PInt 2) (AppError "full") ] /\
  calls (last_state r) = [(PInt 0, 0, test_event 0)].
Proof. by_running. Qed.

(** ** Handoff and the reference of the stage *)



(** ** Connecting the multiplexer while an event is in the cells *)





(** ** More events than cells *)





(** ** The counter *)




(** The run of the witness ends at time 7, when the event put in at
    time 2 is through. *)
Example three_starting_run :
  let r := run 100 three_starting in
  raised r = None /\
  now (last_state r) = PInt 7 /\
  downstream_events_processed (buf (last_state r)) = 3.
Proof. by_running. Qed.

(** ** What can fail, and what cannot *)






(** The run of the witness: the request is made at time 5 and fails at
    time 7, and the counter is still 0. *)
Example rejected_event_run :
  let r := run 100 (process (buffer_in (test_event 0))
                      (fresh rejected_buffer)) in
  raised r = None /\
  now (last_state r) = PInt 7 /\
  downstream_events_processed (buf (last_state r)) = 0 /\
  calls (last_state r) = [(PInt 5, 0, test_event 0)] /\
  filter is_caught_line (stdout (last_state r))
  = [LCaught (PInt 7) (AppError "full")].
Proof. by_running. Qed.

(** ** Timestamps that cannot be printed *)

Lemma span_buffer_in_unprintable par b event t :
  debug b = true -> fits t = false ->
  span par b t (buffer_in event) [] t 1 [] (Err OverflowError).
Proof.
  intros Hd Hf. unfold buffer_in, when_debug.
  apply span_self. intros c. cbn [debug with_count]. rewrite Hd.
  apply (span_print_raise par b t _ OverflowError).
  - now apply stamped_overflow.
  - apply span_raise_nil.
Qed.

(** X17.  With the trace on, an event put in when the clock is at an
    [int] that [float] refuses (2^1024 and beyond, as after
    [Environment(initial_time=10**309)]) gets nowhere: the first [print]
    of [buffer_in] raises [OverflowError] from [self.env.now*1e6], the
    run stops at once with that exception, nothing is printed, counted
    or requested. *)
Theorem unprintable_clock_raises (st : state) (event : DownstreamEvent)
    (t : Z) :
  queue st = [] ->
  now st = PInt t ->
  debug (buf st) = true ->
  fits t = false ->
  exists fuel0, forall fuel, (fuel0 <= fuel)%nat ->
  exists st',
    run fuel (process (buffer_in event) st) = Crashed OverflowError st' /\
    now st' = PInt t /\ buf st' = buf st /\
    stdout st' = stdout st /\ calls st' = calls st.
Proof.
  intros Hq Hnow Hd Hf. exists 2%nat. intros fuel Hfuel.
  destruct (run_process_linear (buf st) t (buffer_in event) _ _ _ _ st
              (downstream_events_processed (buf st)) fuel
              (span_buffer_in_unprintable false (buf st) event t Hd Hf)
              Hnow Hq (eq_sym (with_count_self _)) Hfuel)
    as (st' & Hrun & Hnow' & _ & Hbuf & Hout & Hcalls).
  exists st'. repeat split; auto.
  - rewrite Hbuf. simpl. rewrite Z.add_0_r. apply with_count_self.
  - rewrite Hout. apply app_nil_r.
  - rewrite Hcalls. apply app_nil_r.
Qed.

Lemma unprintable_clock_raises_witness :
  exists fuel0, forall fuel, (fuel0 <= fuel)%nat ->
  exists st',
    run fuel (process (buffer_in (test_event 0))
                (fresh_at (PInt huge) test_buffer))
    = Crashed OverflowError st' /\
    now st' = PInt huge /\ buf st' = test_buffer /\
    stdout st' = [] /\ calls st' = [].
Proof.
  apply (unprintable_clock_raises (fresh_at (PInt huge) test_buffer)
           (test_event 0) huge);
    [ reflexivity | reflexivity | reflexivity | vm_compute; reflexivity ].
Defined.

Lemma span_buffer_in_caught_overflow par b P D m e event t :
  sample_length b = PInt P -> chain_delay b = PInt D ->
  0 <= P -> 0 <= D ->
  debug b = false ->
  amux b = Some m ->
  act_outcome (entry_point m (buffer_index b) event) = Err e ->
  is_exception e = true ->
  fits (t + traversal_time b + handoff_time b event) = false ->
  span par b t (buffer_in event) []
       (t + traversal_time b + handoff_time b event)
       (buffer_in_steps b event)
       [ECall (t + traversal_time b) (buffer_index b) event]
       (Err OverflowError).
Proof.
  intros HP HD HP0 HD0 Hd Hm Ha He Hf.
  assert (Hs : forall u, shown b u) by (intros u H; congruence).
  unfold buffer_in, buffer_in_steps, when_debug.
  apply span_self. intros c. cbn [debug with_count]. rewrite Hd.
  apply span_self. intros c'. cbn [buffer_length with_count].
  rewrite (traversal_time_eq b P D HP HD) in *. unfold cell_count in *.
  rewrite <- (length_range (buffer_length b)) in *.
  replace [ECall (t + Z.of_nat (length (range (buffer_length b))) * (P + D))
             (buffer_index b) event]
    with (fx_cells b t event (range (buffer_length b))
          ++ [ECall (t + Z.of_nat (length (range (buffer_length b)))
                         * (P + D))
                (buffer_index b) event]).
  2:{ assert (E : forall l u, fx_cells b u event l = []).
      { induction l as [|i l IH]; intros u; [reflexivity|].
        cbn [fx_cells]. unfold fx_unit, dbg. rewrite Hd, IH. reflexivity. }
      now rewrite E. }
  apply (span_cells par b P D HP HD HP0 HD0); try apply Hs.
  set (t1 := t + Z.of_nat (length (range (buffer_length b))) * (P + D)) in *.
  unfold handoff, handoff_steps, handoff_time, when_debug in *.
  rewrite Hm in *.
  apply span_self. intros c1. cbn [debug with_count]. rewrite Hd.
  apply span_self. intros c2. cbn [amux with_count]. rewrite Hm.
  apply span_process. unfold remove_from_buffer, when_debug.
  apply span_self. intros c3. cbn [debug with_count]. rewrite Hd.
  apply span_self. intros c4. cbn [buffer_index with_count].
  apply span_call. apply span_process.
  replace (S (S (act_steps (entry_point m (buffer_index b) event))))
    with (act_steps (entry_point m (buffer_index b) event) + 2)%nat by lia.
  apply span_activity. rewrite Ha.
  apply span_raise_cons. rewrite He.
  apply (span_print_raise par b _ _ OverflowError).
  - now apply stamped_overflow.
  - apply span_raise_nil.
Qed.

(** X18.  The line that reports a caught failure is printed inside the
    [except] block.  On a stage with the trace off whose multiplexer
    fails for the event with an instance of [Exception], at a time
    [float] refuses, building that line raises [OverflowError]: the
    handler does not finish, the exception leaves [buffer_in] and stops
    the run, and no line is printed.  The request has been made once,
    and the counter is as it was.  Clock and delays are whole ticks. *)
Theorem caught_line_overflow (st : state) (event : DownstreamEvent)
    (m : AMUX) (e : exn) (t P D : Z) :
  queue st = [] ->
  now st = PInt t ->
  debug (buf st) = false ->
  amux (buf st) = Some m ->
  sample_length (buf st) = PInt P ->
  chain_delay (buf st) = PInt D ->
  0 <= P ->
  0 <= D ->
  act_outcome (entry_point m (buffer_index (buf st)) event) = Err e ->
  is_exception e = true ->
  fits (t + traversal_time (buf st) + handoff_time (buf st) event) = false ->
  exists fuel0, forall fuel, (fuel0 <= fuel)%nat ->
  exists st',
    run fuel (process (buffer_in event) st) = Crashed OverflowError st' /\
    now st' = PInt (t + traversal_time (buf st)
                    + handoff_time (buf st) event) /\
    buf st' = buf st /\
    stdout st' = stdout st /\
    calls st' = calls st ++ [(PInt (t + traversal_time (buf st)),
                              buffer_index (buf st), event)].
Proof.
  intros Hq Hnow Hd Hm HP HD HP0 HD0 Ha He Hf.
  exists (S (buffer_in_steps (buf st) event)). intros fuel Hfuel.
  destruct (run_process_linear (buf st) t (buffer_in event) _ _ _ _ st
              (downstream_events_processed (buf st)) fuel
              (span_buffer_in_caught_overflow false (buf st) P D m e event t
                 HP HD HP0 HD0 Hd Hm Ha He Hf)
              Hnow Hq (eq_sym (with_count_self _)) Hfuel)
    as (st' & Hrun & Hnow' & _ & Hbuf & Hout & Hcalls).
  exists st'. repeat split; auto.
  - rewrite Hbuf. simpl. rewrite Z.add_0_r. apply with_count_self.
  - rewrite Hout. apply app_nil_r.
Qed.

Lemma caught_line_overflow_witness :
  exists fuel0, forall fuel, (fuel0 <= fuel)%nat ->
  exists st',
    run fuel (process (buffer_in (test_event 0))
                (fresh slow_rejected_buffer))
    = Crashed OverflowError st' /\
    now st' = PInt (0 + traversal_time slow_rejected_buffer
                    + handoff_time slow_rejected_buffer (test_event 0)) /\
    buf st' = slow_rejected_buffer /\
    stdout st' = [] /\
    calls st' = [] ++ [(PInt (0 + traversal_time slow_rejected_buffer),
                        0, test_event 0)].
Proof.
  apply (caught_line_overflow (fresh slow_rejected_buffer) (test_event 0)
           rejecting_amux (AppError "full") 0 huge 0);
    [ reflexivity | reflexivity | reflexivity | reflexivity | reflexivity
    | reflexivity | vm_compute; discriminate | lia | reflexivity
    | reflexivity | vm_compute; reflexivity ].
Defined.

(** ** Failures that are no [Exception] *)






(** ** Traversal on any clock *)

Lemma soon_soon t : soon (soon t) = soon t.
Proof.
  destruct t as [z|f]; [reflexivity|]. cbn [soon]. f_equal.
  apply Prim2SF_inj. rewrite !add_spec.
  destruct (Prim2SF f) as [[|]|[|]| |s m e]; reflexivity.
Qed.

(** The cell loop with the trace off, on any clock: four events per
    cell, and the clock goes as [walk] says. *)
Lemma run_cells_quiet event rest P D l : forall s st T,
  queue st = [] ->
  debug (buf st) = false ->
  sample_length (buf st) = P ->
  chain_delay (buf st) = D ->
  lt0 P = false ->
  lt0 D = false ->
  walk (length l) P D (now st) = inr T ->
  exists st1,
    (forall fuel,
       run (4 * length l + fuel) (exec (cells event l rest) s st)
       = run fuel (exec rest s st1)) /\
    now st1 = T /\ queue st1 = [] /\ buf st1 = buf st /\
    stdout st1 = stdout st /\ calls st1 = calls st.
Proof.
  induction l as [|i l IH]; intros s st T Hq Hd HP HD HP0 HD0 Hw.
  - cbn [length walk] in Hw. injection Hw as <-.
    exists st. repeat split; auto.
  - cbn [length walk] in Hw. unfold cell_clock in Hw.
    destruct (num_add (soon (now st)) P) as [e|t1] eqn:H1; [discriminate|].
    destruct (num_add (soon t1) D) as [e|t2] eqn:H2; [discriminate|].
    set (sa := popped (soon (now st)) st).
    set (sb := popped t1 sa).
    set (sc := popped (soon t1) sb).
    set (sd := popped t2 sc).
    destruct (IH s sd T eq_refl Hd HP HD HP0 HD0 Hw)
      as (st1 & Hrun & Hn1 & Hq1 & Hb1 & Ho1 & Hc1).
    exists st1. split; [|repeat split; assumption].
    intros fuel.
    replace (4 * length (i :: l) + fuel)%nat
      with (S (S (S (S (4 * length l + fuel))))) by (simpl; lia).
    cbn [cells exec]. cbn [run].
    rewrite step_single by assumption. fold sa.
    unfold sample_and_hold_unit, when_debug. cbn [exec].
    change (buf sa) with (buf st). rewrite Hd. cbn [exec].
    change (buf sa) with (buf st). rewrite HP.
    unfold timeout. rewrite HP0. cbn [exec].
    change (now sa) with (soon (now st)). rewrite H1.
    rewrite step_single by reflexivity. fold sb.
    cbn [exec]. change (buf sb) with (buf st). rewrite Hd. cbn [exec].
    change (now sb) with t1.
    rewrite step_single by reflexivity. fold sc.
    cbn [exec]. change (buf sc) with (buf st). rewrite HD.
    unfold timeout. rewrite HD0.
    cbn [exec]. change (now sc) with (soon t1). rewrite H2.
    rewrite step_single by reflexivity. fold sd.
    apply Hrun.
Qed.

(** X21.  On any clock and with any delays that are not negative, [int]
    or [float], an event put into a stage without a multiplexer and with
    the trace off is traversed, counted as dropped and the run ends
    normally.  The clock it ends at is computed from the clock it
    started at by one Python addition per suspension, cell after cell,
    as [walk] has it: it depends on the start, the cell count and the
    two delays and on nothing else, and with [float]s it is the rounded
    running sum, not a product.  (The additions are taken not to raise:
    a [float] next to an [int] beyond its range would.) *)
Theorem traversal_on_any_clock (st : state) (event : DownstreamEvent)
    (T : num) :
  queue st = [] ->
  debug (buf st) = false ->
  amux (buf st) = None ->
  lt0 (sample_length (buf st)) = false ->
  lt0 (chain_delay (buf st)) = false ->
  walk (Z.to_nat (buffer_length (buf st)))
       (sample_length (buf st)) (chain_delay (buf st)) (soon (now st))
  = inr T ->
  exists fuel0, forall fuel, (fuel0 <= fuel)%nat ->
  exists st',
    run fuel (process (buffer_in event) st) = Quiescent st' /\
    now st' = soon T /\
    buf st' = bump (buf st) /\
    stdout st' = stdout st /\
    calls st' = calls st.
Proof.
  intros Hq Hd Hm HP0 HD0 Hw.
  set (C := Z.to_nat (buffer_length (buf st))) in *.
  set (s0 := popped (soon (now st)) st).
  destruct (run_cells_quiet event (handoff event) _ _
              (range (buffer_length (buf st))) [] s0 T
              eq_refl Hd eq_refl eq_refl HP0 HD0)
    as (st1 & Hrun & Hn1 & Hq1 & Hb1 & Ho1 & Hc1).
  { rewrite length_range. exact Hw. }
  rewrite length_range in Hrun. fold C in Hrun.
  change (buf s0) with (buf st) in Hb1.
  exists (S (4 * C + 3))%nat. intros fuel Hfuel.
  replace fuel with (S (4 * C + (3 + (fuel - (4 * C + 4)))))%nat by lia.
  unfold process. cbn [run]. rewrite step_single by assumption. fold s0.
  unfold buffer_in, when_debug. cbn [exec].
  change (buf s0) with (buf st). rewrite Hd.
  rewrite Hrun.
  unfold handoff, when_debug. cbn [exec]. rewrite Hb1, Hd.
  cbn [exec]. rewrite Hb1, Hm.
  cbn [Nat.add run]. rewrite step_single by assumption.
  unfold remove_from_buffer, when_debug. cbn [exec].
  cbn [buf popped]. rewrite Hb1, Hd. cbn [exec].
  cbn [buf popped]. rewrite Hb1, Hd. cbn [exec].
  rewrite step_single by reflexivity. cbn [exec].
  rewrite step_single by reflexivity.
  rewrite run_empty by reflexivity.
  eexists. split; [reflexivity|].
  cbn [now buf stdout calls popped set_buf]. rewrite Hn1, Hb1, Ho1, Hc1.
  rewrite !soon_soon. repeat split.
Qed.

Lemma traversal_on_any_clock_witness :
  exists fuel0, forall fuel, (fuel0 <= fuel)%nat ->
  exists st',
    run fuel (process (buffer_in (test_event 0)) (fresh float_buffer))
    = Quiescent st' /\
    now st' = soon (PFloat 0x1.fffffffffffffp-1) /\
    buf st' = bump float_buffer /\
    stdout st' = [] /\
    calls st' = [].
Proof.
  apply (traversal_on_any_clock (fresh float_buffer) (test_event 0)
           (PFloat 0x1.fffffffffffffp-1));
    [ reflexivity | reflexivity | reflexivity | reflexivity | reflexivity
    | vm_compute; reflexivity ].
Defined.
